(** * mutagen/__init__.py: the tag facade [FileType] and the format
      dispatcher [File]

    A shallow embedding of [src/mutagen/__init__.py] (Python 2).

    - Python [str] values (file names, tag keys, file contents, the header
      buffer) are [string]s: a Python 2 [str] is a byte string.
    - The interpreter state the module acts on (the file system, the table
      of file objects, the warnings emitted so far) is the record [World];
      code that performs I/O or may raise lives in the monad [M], which
      threads the world and carries either an exception or a value.
    - A dict is a [gmap]; [None] attributes are [option]s. *)

From stdpp Require Import gmap strings list fin_maps.
From Stdlib Require Import ZArith.

Local Open Scope string_scope.
Local Open Scope list_scope.
Local Open Scope Z_scope.

(** ** Exceptions and results *)

Inductive exn : Type :=
| KeyError (key : string)
| ValueError (msg : string)
| AttributeError (msg : string)
| TypeError (msg : string)
| IndexError (msg : string)
| IOError (msg : string)
| NotImplementedError
| FormatError (msg : string).

(** [result A] is the outcome of a call that touches no global state:
    an exception or a value. *)
Definition result (A : Type) : Type := exn + A.

Definition rbind {A B : Type} (r : result A) (k : A → result B) : result B :=
  match r with
  | inl e => inl e
  | inr a => k a
  end.

(** ** The world: files, file objects, warnings *)

(** A file object as returned by [file(name, "rb")]. *)
Record FileObj : Type := mkFileObj {
  fo_name : string;
  fo_pos : nat;
  fo_closed : bool;
}.

Inductive category : Type := DeprecationWarning | UserWarning.

Record World : Type := mkWorld {
  fs : gmap string string;           (* path -> contents *)
  fds : list FileObj;                (* file objects, by reference *)
  warned : list (string * category); (* warnings.warn calls, oldest first *)
}.

(** References to file objects are indices in [fds]. *)
Definition fileref : Type := nat.

Definition M (A : Type) : Type := World → World * result A.

Definition raise {A : Type} (e : exn) : M A := λ w, (w, inl e).

Definition lift {A : Type} (r : result A) : M A := λ w, (w, r).

(** Sequencing is written with stdpp's monad notation, [x ← m; k]. *)
#[global] Instance M_ret : MRet M := λ A a w, (w, inr a).

#[global] Instance M_bind : MBind M := λ A B k m w,
  match m w with
  | (w', inl e) => (w', inl e)
  | (w', inr a) => k a w'
  end.

(** [try: body finally: fin].  The [finally] clause runs on the world the
    body left, whether the body raised or not; the body's outcome is kept
    unless the clause itself raises. *)
Definition try_finally {A : Type} (body : M A) (fin : M unit) : M A :=
  λ w, match body w with
       | (w', r) =>
         match fin w' with
         | (w'', inl e) => (w'', inl e)
         | (w'', inr _) => (w'', r)
         end
       end.

(** [[f(x) for x in xs]]: left to right, stopping at the first exception. *)
Fixpoint list_comprehension {A B : Type} (f : A → M B) (xs : list A) : M (list B) :=
  match xs with
  | [] => mret []
  | x :: xs' =>
    y ← f x;
    ys ← list_comprehension f xs';
    mret (y :: ys)
  end.

(** *** File primitives *)

(** [file(name, "rb")]: fails with [IOError] when the path does not exist;
    otherwise a new file object positioned at the start. *)
Definition file_open (name : string) : M fileref :=
  λ w, match fs w !! name with
       | None => (w, inl (IOError name))
       | Some _ =>
         (mkWorld (fs w) (fds w ++ [mkFileObj name 0 false]) (warned w),
          inr (length (fds w)))
       end.

(** [fileobj.read(n)]: at most [n] bytes from the current position, which
    advances by what was read.  Reading a closed file is a [ValueError]. *)
Definition file_read (f : fileref) (n : nat) : M string :=
  λ w, match fds w !! f with
       | None => (w, inl (ValueError "no such file object"))
       | Some fo =>
         if fo_closed fo then (w, inl (ValueError "I/O operation on closed file"))
         else
           match fs w !! fo_name fo with
           | None => (w, inl (IOError (fo_name fo)))
           | Some data =>
             let chunk := String.substring (fo_pos fo) n data in
             (mkWorld (fs w)
                (<[f := mkFileObj (fo_name fo) (fo_pos fo + String.length chunk) false]> (fds w))
                (warned w),
              inr chunk)
           end
       end.

(** [fileobj.close()]: never fails, closing twice is allowed. *)
Definition file_close (f : fileref) : M unit :=
  λ w, match fds w !! f with
       | None => (w, inr ())
       | Some fo =>
         (mkWorld (fs w) (<[f := mkFileObj (fo_name fo) (fo_pos fo) true]> (fds w)) (warned w),
          inr ())
       end.

(** [warnings.warn(msg, cat)] under the default filters: recorded, not fatal. *)
Definition warn (msg : string) (cat : category) : M unit :=
  λ w, (mkWorld (fs w) (fds w) (warned w ++ [(msg, cat)]), inr ()).

(** Whether file object [f] is open in world [w]. *)
Definition is_open (w : World) (f : fileref) : bool :=
  match fds w !! f with
  | Some fo => negb (fo_closed fo)
  | None => false
  end.

(** ** The data model *)

(** Keyword arguments handed through to [tags.save]. *)
Definition kwargs : Type := list (string * string).

Section Mutagen.

(** Tag values: lists of strings for most formats, richer objects for
    some; the facade never inspects them. *)
Context {V : Type}.

(** The class of a tag object: the methods a concrete format supplies.
    [save] and [delete] act on the world and may change the tag object;
    [pprint] is missing from classes that do not define it. *)
Record TagClass : Type := mkTagClass {
  tags_save : gmap string V → string → kwargs → M (gmap string V);
  tags_delete : gmap string V → string → M (gmap string V);
  tags_pprint : option (gmap string V → result string);
}.

(** [class Metadata(dict)]: the dict contents and the object's class. *)
Record Metadata : Type := mkMetadata {
  items : gmap string V;
  tags_class : TagClass;
}.

(** The abstract base class itself: [save] and [delete] raise
    [NotImplementedError], and there is no [pprint]. *)
Definition Metadata_base : TagClass :=
  {| tags_save := λ _ _ _, raise NotImplementedError;
     tags_delete := λ _ _, raise NotImplementedError;
     tags_pprint := None |}.

(** [Metadata.load]: abstract. *)
Definition Metadata_load (self : Metadata) (args : list string) (kw : kwargs)
    : M Metadata :=
  raise NotImplementedError.

(** [Metadata.__init__(self, *args, **kwargs)]: [load] is called only
    when some argument was given.  [load] is the method the object's
    class resolves [self.load] to; [self] is the new, empty dict. *)
Definition Metadata_init (load : Metadata → list string → kwargs → M Metadata)
    (self : Metadata) (args : list string) (kw : kwargs) : M Metadata :=
  match args, kw with
  | [], [] => mret self
  | _, _ => load self args kw
  end.

(** Stream information: the facade only calls its [pprint()]. *)
Record StreamInfo : Type := mkStreamInfo {
  info_pprint : string;
}.

(** [class FileType].  [info] and [tags] are class attributes defaulting
    to [None]; [filename] has no class-level default, so the attribute
    is absent ([None] here) until a format's [load] assigns it.
    [new_tags] is the tag class the format's [add_tags] instantiates. *)
Record FileType : Type := mkFileType {
  info : option StreamInfo;
  tags : option Metadata;
  filename : option string;
  new_tags : TagClass;
}.

Definition set_tags (self : FileType) (t : option Metadata) : FileType :=
  {| info := info self; tags := t; filename := filename self;
     new_tags := new_tags self |}.

(** The object [__init__] receives: nothing assigned yet. *)
Definition fresh (tc : TagClass) : FileType :=
  {| info := None; tags := None; filename := None; new_tags := tc |}.

(** [self.filename]. *)
Definition get_filename (self : FileType) : result string :=
  match filename self with
  | Some f => inr f
  | None => inl (AttributeError "'FileType' object has no attribute 'filename'")
  end.

(** *** dict operations on the tag object *)

Definition dict_getitem (d : gmap string V) (key : string) : result V :=
  match d !! key with
  | Some v => inr v
  | None => inl (KeyError key)
  end.

Definition dict_delitem (d : gmap string V) (key : string) : result (gmap string V) :=
  match d !! key with
  | Some _ => inr (delete key d)
  | None => inl (KeyError key)
  end.

Definition dict_keys (d : gmap string V) : list string := (map_to_list d).*1.

(** ** FileType methods *)

(** [FileType.load]: abstract. *)
Definition FileType_load (self : FileType) (filename : string) : M FileType :=
  raise NotImplementedError.

(** [FileType.__init__(self, filename=None)].  [load] is the method the
    object's class resolves [self.load] to. *)
Definition FileType_init (load : FileType → string → M FileType)
    (self : FileType) (filename : option string) : M FileType :=
  match filename with
  | None =>
    warn "FileType constructor requires a filename" DeprecationWarning;;
    mret self
  | Some f => load self f
  end.

(** [FileType.__getitem__]. *)
Definition getitem (self : FileType) (key : string) : result V :=
  match tags self with
  | None => inl (KeyError key)
  | Some t => dict_getitem (items t) key
  end.

(** Modelled from the spec: [add_tags] is defined by the concrete formats,
    none of which is among the sources; per the spec it "creates an
    empty, format-appropriate TagContainer" and stores it in [tags]. *)
Definition add_tags (self : FileType) : result FileType :=
  inr (set_tags self (Some (mkMetadata ∅ (new_tags self)))).

(** [FileType.__setitem__]. *)
Definition setitem (self : FileType) (key : string) (value : V) : result FileType :=
  rbind (match tags self with
         | None => add_tags self
         | Some _ => inr self
         end)
    (λ self,
       match tags self with
       | None => inl (TypeError "'NoneType' object does not support item assignment")
       | Some t =>
         inr (set_tags self (Some (mkMetadata (<[key := value]> (items t)) (tags_class t))))
       end).

(** [FileType.__delitem__]. *)
Definition delitem (self : FileType) (key : string) : result FileType :=
  match tags self with
  | None => inl (KeyError key)
  | Some t =>
    rbind (dict_delitem (items t) key)
      (λ d, inr (set_tags self (Some (mkMetadata d (tags_class t)))))
  end.

(** [FileType.keys]. *)
Definition keys (self : FileType) : list string :=
  match tags self with
  | None => []
  | Some t => dict_keys (items t)
  end.

(** [FileType.delete(self, filename=None)]. *)
Definition FileType_delete (self : FileType) (filename : option string) : M FileType :=
  match tags self with
  | Some t =>
    filename ← match filename with
               | None => lift (get_filename self)
               | Some f =>
                 warn "delete(filename=...) is deprecated, reload the file"
                   DeprecationWarning;;
                 mret f
               end;
    d ← tags_delete (tags_class t) (items t) filename;
    mret (set_tags self (Some (mkMetadata d (tags_class t))))
  | None => mret self
  end.

(** [FileType.save(self, filename=None, **kwargs)]. *)
Definition FileType_save (self : FileType) (filename : option string)
    (kw : kwargs) : M FileType :=
  filename ← match filename with
             | None => lift (get_filename self)
             | Some f =>
               warn "save(filename=...) is deprecated, reload the file"
                 DeprecationWarning;;
               mret f
             end;
  match tags self with
  | Some t =>
    d ← tags_save (tags_class t) (items t) filename kw;
    mret (set_tags self (Some (mkMetadata d (tags_class t))))
  | None => raise (ValueError "no tags in file")
  end.

(** The newline character, Python's ["\n"]. *)
Definition nl : string := String (Ascii.ascii_of_nat 10) "".

(** [FileType.pprint].  [self.info.pprint()] is outside the [try]; the
    [except AttributeError] covers a [tags] of [None], a tag class
    without [pprint], and an [AttributeError] raised inside it. *)
Definition FileType_pprint (self : FileType) : result string :=
  match info self with
  | None => inl (AttributeError "'NoneType' object has no attribute 'pprint'")
  | Some i =>
    let stream := info_pprint i in
    match tags self with
    | None => inr stream
    | Some t =>
      match tags_pprint (tags_class t) with
      | None => inr stream
      | Some pp =>
        match pp (items t) with
        | inl (AttributeError _) => inr stream
        | inl e => inl e
        | inr tags => inr (stream +:+ (if decide (tags = "") then "" else nl +:+ tags))
        end
      end
    end
  end.

(** ** The dispatcher *)

(** A candidate format [Kind]: a class object with a static [score] and a
    constructor.  [kind_id] is the object's identity: Python 2 orders
    class objects that define no comparison of their own by identity
    (in CPython, the address of the object). *)
Record Kind : Type := mkKind {
  kind_id : Z;
  score : string → fileref → string → M Z;
  construct : string → M FileType;
}.

(** Comparison of the [(score, Kind)] tuples that [zip] builds.  Python
    compares tuples lexicographically: the scores first and, when they
    are equal, the class objects. *)
Definition tuple_le (a b : Z * Kind) : bool :=
  (a.1 <? b.1) || ((a.1 =? b.1) && (kind_id a.2 <=? kind_id b.2)).

(** [list.sort()]: a stable sort.  Insertion walks past the elements
    strictly below [x] and stops at the first one [x] does not exceed. *)
Fixpoint insert_sorted (x : Z * Kind) (l : list (Z * Kind)) : list (Z * Kind) :=
  match l with
  | [] => [x]
  | y :: l' => if tuple_le x y then x :: y :: l' else y :: insert_sorted x l'
  end.

Definition list_sort (l : list (Z * Kind)) : list (Z * Kind) :=
  foldr insert_sorted [] l.

(** The formats [File] tries when [options] is [None]; their modules are
    not among the sources. *)
Variable default_options : list Kind.

(** [File(filename, options=None)]. *)
Definition File (filename : string) (options : option (list Kind))
    : M (option FileType) :=
  let options := match options with
                 | None => default_options
                 | Some o => o
                 end in
  match options with
  | [] => mret None
  | _ =>
    fileobj ← file_open filename;
    results ← try_finally
                (header ← file_read fileobj 128;
                 list_comprehension (λ K, score K filename fileobj header) options)
                (file_close fileobj);
    let results := list_sort (zip results options) in
    match last results with
    | None => raise (IndexError "list index out of range")
    | Some (score, K) =>
      if 0 <? score then ft ← construct K filename; mret (Some ft)
      else mret None
    end
  end.

End Mutagen.

Arguments TagClass : clear implicits.
Arguments Metadata : clear implicits.
Arguments FileType : clear implicits.
Arguments Kind : clear implicits.

(** * Definitions used in the statements *)

Section Statements.

Context {V : Type}.
Implicit Types (x y m : Z * Kind V) (l s : list (Z * Kind V)).
Implicit Types (K : Kind V) (options : list (Kind V)) (w : World) (f : fileref).

(** The spec's wording of the two-part output: stream summary, a blank
    line, tag summary. *)
Definition blank_line_join (stream tags : string) : string :=
  stream +:+ nl +:+ nl +:+ tags.

(** The element a stable ascending sort leaves last, computed right to
    left: an earlier element displaces the best of the later ones only
    when it is strictly above it. *)
Definition winner l : option (Z * Kind V) :=
  foldr (λ x best,
           match best with
           | None => Some x
           | Some m => if tuple_le x m then Some m else Some x
           end) None l.

(** The last element of a list bounds the rest. *)
Definition last_bounds s : Prop :=
  ∀ y m, y ∈ s → last s = Some m → tuple_le y m = true.

(** The world once [path] has been opened and its header read: one more
    file object, open, positioned after the header. *)
Definition opened (path data : string) w : World :=
  mkWorld (fs w)
    (fds w ++ [mkFileObj path (String.length (String.substring 0 128 data)) false])
    (warned w).

(** The world once [f] has been closed. *)
Definition closed f w : World := (file_close f w).1.

(** The scoring comprehension of [File], on file object [f]. *)
Definition scoring (path : string) f (header : string) options : M (list Z) :=
  list_comprehension (λ K, score K path f header) options.

(** What [File] does with the scores: sort the pairs, take the last,
    construct it when its score is positive. *)
Definition choose (path : string) (scores : list Z) options : M (option (FileType V)) :=
  match last (list_sort (zip scores options)) with
  | None => raise (IndexError "list index out of range")
  | Some (s, K) =>
    if 0 <? s then ft ← construct K path; mret (Some ft) else mret None
  end.

End Statements.

(** * Concrete candidates and worlds *)

(** A file as a format constructor leaves it: stream information and the
    file name set, no tags yet. *)
Definition loaded (summary path : string) : FileType (list string) :=
  {| info := Some (mkStreamInfo summary); tags := None;
     filename := Some path; new_tags := Metadata_base |}.

(** A candidate whose score ignores its arguments. *)
Definition fixed_score (id s : Z) (summary : string) : Kind (list string) :=
  {| kind_id := id;
     score := λ _ _ _, mret s;
     construct := λ path, mret (loaded summary path) |}.

(** A candidate that looks past the header: it reads one more byte from
    the file object it is handed and scores 1 when there is one. *)
Definition tail_reader : Kind (list string) :=
  {| kind_id := 1;
     score := λ _ fileobj _,
       rest ← file_read fileobj 1;
       mret (if decide (rest = "") then 0 else 1);
     construct := λ path, mret (loaded "tail" path) |}.

Fixpoint filler (n : nat) : string :=
  match n with
  | O => ""
  | S n' => String (Ascii.ascii_of_nat 97) (filler n')
  end.

Definition disk (data : string) : World :=
  {| fs := {[ "song.mp3" := data ]}; fds := []; warned := [] |}.

(** A tag class whose [pprint] gives a fixed text. *)
Definition printing_tags (text : string) : TagClass (list string) :=
  {| tags_save := λ d _ _, mret d;
     tags_delete := λ _ _, mret ∅;
     tags_pprint := Some (λ _, inr text) |}.

Definition tagged (summary text : string) : FileType (list string) :=
  {| info := Some (mkStreamInfo summary);
     tags := Some (mkMetadata ∅ (printing_tags text));
     filename := Some "song.mp3"; new_tags := printing_tags text |}.

(** A file carrying the tags [d]. *)
Definition tagged_with (d : gmap string (list string)) : FileType (list string) :=
  {| info := Some (mkStreamInfo "mp3"); tags := Some (mkMetadata d (printing_tags ""));
     filename := Some "song.mp3"; new_tags := printing_tags "" |}.

(** A file whose tag object is a plain [Metadata]. *)
Definition plainly_tagged : FileType (list string) :=
  {| info := Some (mkStreamInfo "mp3"); tags := Some (mkMetadata ∅ Metadata_base);
     filename := Some "song.mp3"; new_tags := Metadata_base |}.

(** A candidate whose [score] raises. *)
Definition raising_score (id : Z) : Kind (list string) :=
  {| kind_id := id;
     score := λ _ _ _, raise (IOError "score");
     construct := λ path, mret (loaded "raising" path) |}.

(** A candidate that recognises every file and fails to parse it. *)
Definition broken (id s : Z) : Kind (list string) :=
  {| kind_id := id;
     score := λ _ _ _, mret s;
     construct := λ _, raise (FormatError "not a valid file") |}.

(** * Properties of the facade *)

Section FacadeProperties.

Context {V : Type}.
Implicit Types (self : FileType V) (key : string) (value : V) (w : World).

(** ** Reading and deleting on an untagged file *)

(** C7: on a file whose [tags] is [None], both [__getitem__] and
    [__delitem__] raise [KeyError] carrying the key, whatever the key. *)
Theorem getitem_delitem_untagged self key :
  tags self = None →
  getitem self key = inl (KeyError key) ∧ delitem self key = inl (KeyError key).
Proof.
  intros Hnone. unfold getitem, delitem. rewrite Hnone. split; reflexivity.
Qed.

(** With tags present both calls go to the dict. *)
Lemma getitem_tagged self t key :
  tags self = Some t → getitem self key = dict_getitem (items t) key.
Proof. intros Ht. unfold getitem. by rewrite Ht. Qed.

Lemma delitem_tagged_missing self t key :
  tags self = Some t → items t !! key = None → delitem self key = inl (KeyError key).
Proof.
  intros Ht Hk. unfold delitem, dict_delitem. by rewrite Ht, Hk.
Qed.

(** ** keys *)

Lemma dict_keys_spec (d : gmap string V) key :
  key ∈ dict_keys d ↔ is_Some (d !! key).
Proof.
  unfold dict_keys. rewrite list_elem_of_fmap. split.
  - intros ([k v] & -> & Hin). apply elem_of_map_to_list in Hin. simpl. eauto.
  - intros [v Hv]. exists (key, v). split; [done|]. by apply elem_of_map_to_list.
Qed.

Lemma dict_keys_NoDup (d : gmap string V) : NoDup (dict_keys d).
Proof. apply NoDup_fst_map_to_list. Qed.

(** C8: [keys()] is a total function (it has no exceptional outcome);
    it is the empty list when [tags] is [None], and otherwise the keys of
    the tag dict: every key bound there, each once. *)
Theorem keys_untagged_empty self :
  (tags self = None → keys self = []) ∧
  (∀ t, tags self = Some t →
        keys self = dict_keys (items t) ∧
        NoDup (keys self) ∧
        ∀ key, key ∈ keys self ↔ is_Some (items t !! key)).
Proof.
  split.
  - intros Hnone. unfold keys. by rewrite Hnone.
  - intros t Ht. unfold keys. rewrite Ht. split; [done|]. split.
    + apply dict_keys_NoDup.
    + apply dict_keys_spec.
Qed.

(** ** Writing to an untagged file *)

Lemma add_tags_creates self :
  ∃ self', add_tags self = inr self' ∧
           tags self' = Some (mkMetadata ∅ (new_tags self)) ∧
           info self' = info self ∧ filename self' = filename self.
Proof. eexists. split; [reflexivity|]. by simpl. Qed.

(** C5: on a file whose [tags] is [None], [__setitem__] succeeds, leaves
    [tags] non-null, and a following [__getitem__] of the same key gives
    the value back; the container created holds that key only. *)
Theorem setitem_untagged_creates_tags self key value :
  tags self = None →
  ∃ self' t,
    setitem self key value = inr self' ∧
    tags self' = Some t ∧
    getitem self' key = inr value ∧
    items t = {[ key := value ]}.
Proof.
  intros Hnone. unfold setitem. rewrite Hnone. simpl.
  eexists _, _. split; [reflexivity|]. simpl. split; [reflexivity|]. split.
  - unfold getitem, dict_getitem. simpl. by rewrite lookup_insert_eq.
  - simpl. by rewrite insert_empty.
Qed.

(** On a tagged file the write goes straight to the existing dict. *)
Lemma setitem_tagged self t key value :
  tags self = Some t →
  setitem self key value =
    inr (set_tags self (Some (mkMetadata (<[key := value]> (items t)) (tags_class t)))).
Proof. intros Ht. unfold setitem. rewrite Ht. simpl. by rewrite Ht. Qed.

Lemma getitem_setitem self self' key value :
  setitem self key value = inr self' → getitem self' key = inr value.
Proof.
  unfold setitem. destruct (tags self) as [t|] eqn:Ht; simpl.
  - rewrite Ht. intros [= <-]. unfold getitem, dict_getitem. simpl.
    by rewrite lookup_insert_eq.
  - intros [= <-]. unfold getitem, dict_getitem. simpl.
    by rewrite lookup_insert_eq.
Qed.

(** ** The constructor *)

(** C10: called without a file name, [__init__] never reaches [load]
    (the outcome is the same for every [load]), leaves the file system
    and the file objects alone, adds exactly one [DeprecationWarning],
    and returns normally with [info] and [tags] both [None]. *)
Theorem init_without_filename load (tc : TagClass V) w :
  ∃ self w',
    FileType_init load (fresh tc) None w = (w', inr self) ∧
    info self = None ∧ tags self = None ∧
    fs w' = fs w ∧ fds w' = fds w ∧
    warned w' =
      warned w ++ [("FileType constructor requires a filename", DeprecationWarning)].
Proof.
  eexists _, _. split; [reflexivity|]. by simpl.
Qed.

(** With a file name the constructor is whatever [load] does. *)
Lemma init_with_filename load (tc : TagClass V) f w :
  FileType_init load (fresh tc) (Some f) w = load (fresh tc) f w.
Proof. reflexivity. Qed.

(** ** save *)

(** [save] on an untagged file always raises and never changes the file
    system or the file objects. *)
Lemma save_untagged_raises self fn kw w :
  tags self = None →
  ∃ e w', FileType_save self fn kw w = (w', inl e) ∧ fs w' = fs w ∧ fds w' = fds w.
Proof.
  intros Hnone. unfold FileType_save, get_filename.
  destruct fn as [f|]; [|destruct (filename self) as [f|] eqn:Hf].
  - cbv [mbind M_bind warn mret M_ret raise]. rewrite Hnone. by eexists _, _.
  - cbv [mbind M_bind lift raise]. rewrite Hnone. by eexists _, _.
  - cbv [mbind M_bind lift raise]. by eexists _, _.
Qed.

(** When the object has a [filename], the exception is the [ValueError]
    and the world is untouched. *)
Lemma save_untagged_ValueError self f kw w :
  tags self = None → filename self = Some f →
  FileType_save self None kw w = (w, inl (ValueError "no tags in file")).
Proof.
  intros Hnone Hf. unfold FileType_save, get_filename. rewrite Hf.
  cbv [mbind M_bind lift raise]. by rewrite Hnone.
Qed.

(** With tags, [save()] is [tags.save] on the stored file name. *)
Lemma save_delegates self t f kw w :
  tags self = Some t → filename self = Some f →
  FileType_save self None kw w =
    match tags_save (tags_class t) (items t) f kw w with
    | (w', inl e) => (w', inl e)
    | (w', inr d) => (w', inr (set_tags self (Some (mkMetadata d (tags_class t)))))
    end.
Proof.
  intros Ht Hf. unfold FileType_save, get_filename. rewrite Hf.
  cbv [mbind M_bind lift mret M_ret]. rewrite Ht.
  by destruct (tags_save _ _ _ _ _) as [w' [e|d]].
Qed.

(** C4: the object the constructor returns when called without a file
    name has [tags] equal to [None] and no [filename] attribute; [save()]
    on it stops at [self.filename] with an [AttributeError], before the
    test on [tags] that raises the [ValueError].  The world is left as
    the constructor left it. *)
Theorem save_without_filename_AttributeError load (tc : TagClass V) kw w :
  ∃ self w',
    FileType_init load (fresh tc) None w = (w', inr self) ∧
    tags self = None ∧
    FileType_save self None kw w' =
      (w', inl (AttributeError "'FileType' object has no attribute 'filename'")).
Proof. eexists _, _. split; [reflexivity|]. split; reflexivity. Qed.

(** [delete()] tests [tags] first and so returns normally on the same
    object. *)
Lemma delete_without_filename (tc : TagClass V) w :
  FileType_delete (fresh tc) None w = (w, inr (fresh tc)).
Proof. reflexivity. Qed.

End FacadeProperties.

(** ** pprint *)

Section PprintProperties.

Context {V : Type}.
Implicit Types (self : FileType V) (i : StreamInfo).

Lemma append_empty_r (s : string) : s +:+ "" = s.
Proof. induction s as [|c s IH]; [done|]. change (String c (s +:+ "") = String c s). by f_equal. Qed.

(** Without stream information [pprint] fails: [self.info.pprint()] is
    evaluated before the [try]. *)
Lemma pprint_without_info self :
  info self = None → ∃ msg, FileType_pprint self = inl (AttributeError msg).
Proof. intros Hi. unfold FileType_pprint. rewrite Hi. eauto. Qed.

(** C9 (as the code has it): given stream information, [pprint] returns
    the stream summary alone when [tags] is [None], when the tag class
    has no [pprint], or when the tag summary is empty; otherwise the
    stream summary, one newline character, and the tag summary. *)
Theorem pprint_newline_separated self i :
  info self = Some i →
  (tags self = None → FileType_pprint self = inr (info_pprint i)) ∧
  (∀ t, tags self = Some t → tags_pprint (tags_class t) = None →
        FileType_pprint self = inr (info_pprint i)) ∧
  (∀ t pp, tags self = Some t → tags_pprint (tags_class t) = Some pp →
           pp (items t) = inr "" →
           FileType_pprint self = inr (info_pprint i)) ∧
  (∀ t pp s, tags self = Some t → tags_pprint (tags_class t) = Some pp →
             pp (items t) = inr s → s ≠ "" →
             FileType_pprint self = inr (info_pprint i +:+ nl +:+ s)).
Proof.
  intros Hi. unfold FileType_pprint. rewrite Hi. repeat split.
  - by intros ->.
  - by intros t -> ->.
  - intros t pp -> -> ->. simpl. f_equal. apply append_empty_r.
  - intros t pp s -> -> -> Hs. by rewrite decide_False.
Qed.

(** An [AttributeError] escaping from the tags' own [pprint] is taken for a
    missing method; any other exception propagates. *)
Lemma pprint_tags_raise self i t pp e :
  info self = Some i → tags self = Some t →
  tags_pprint (tags_class t) = Some pp → pp (items t) = inl e →
  FileType_pprint self =
    match e with
    | AttributeError _ => inr (info_pprint i)
    | _ => inl e
    end.
Proof.
  intros Hi Ht Hpp He. unfold FileType_pprint. rewrite Hi, Ht, Hpp, He.
  by destruct e.
Qed.

End PprintProperties.

(** * Properties of the dispatcher *)

Section SortProperties.

Context {V : Type}.
Implicit Types (x y m : Z * Kind V) (l s : list (Z * Kind V)).

Lemma tuple_le_refl x : tuple_le x x = true.
Proof. unfold tuple_le. destruct x as [a K]; simpl. lia. Qed.

Lemma tuple_le_trans x y m :
  tuple_le x y = true → tuple_le y m = true → tuple_le x m = true.
Proof. unfold tuple_le. destruct x, y, m; simpl. lia. Qed.

Lemma tuple_le_total x y : tuple_le x y = false → tuple_le y x = true.
Proof. unfold tuple_le. destruct x, y; simpl. lia. Qed.

Lemma tuple_le_fst x y : tuple_le x y = true → x.1 ≤ y.1.
Proof. unfold tuple_le. lia. Qed.

Lemma elem_of_insert_sorted y x s : y ∈ insert_sorted x s ↔ y = x ∨ y ∈ s.
Proof.
  induction s as [|z s IH]; simpl.
  - rewrite list_elem_of_singleton, elem_of_nil. tauto.
  - destruct (tuple_le x z); rewrite !elem_of_cons; [tauto|]. rewrite IH. tauto.
Qed.

Lemma last_bounds_tail y s : last_bounds (y :: s) → last_bounds s.
Proof.
  intros Hb z m Hz Hm. apply Hb; [by apply elem_of_cons; right|].
  destruct s; [by apply elem_of_nil in Hz|done].
Qed.

Lemma insert_sorted_nonempty x s : insert_sorted x s ≠ [].
Proof. destruct s as [|y s]; simpl; [done|]. by destruct (tuple_le x y). Qed.

Lemma last_cons_nonempty {A} (a : A) (l : list A) : l ≠ [] → last (a :: l) = last l.
Proof. by destruct l. Qed.

Lemma last_insert_sorted x s :
  last_bounds s →
  last (insert_sorted x s) =
    Some (match last s with
          | None => x
          | Some m => if tuple_le x m then m else x
          end).
Proof.
  induction s as [|y s IH]; intros Hb; [done|].
  simpl insert_sorted. destruct (tuple_le x y) eqn:Hxy.
  - change (last (x :: y :: s)) with (last (y :: s)).
    destruct (last (y :: s)) as [m|] eqn:Hm.
    + assert (tuple_le y m = true) as Hym by (apply Hb; [by apply elem_of_cons; left|done]).
      by rewrite (tuple_le_trans _ _ _ Hxy Hym).
    + by apply last_None in Hm.
  - rewrite last_cons_nonempty by apply insert_sorted_nonempty.
    rewrite IH by (by eapply last_bounds_tail).
    destruct s as [|z s]; simpl last at 1.
    + simpl. by rewrite Hxy.
    + by rewrite (last_cons_nonempty y (z :: s)).
Qed.

Lemma last_bounds_insert_sorted x s : last_bounds s → last_bounds (insert_sorted x s).
Proof.
  intros Hb y m Hy. rewrite last_insert_sorted by done.
  apply elem_of_insert_sorted in Hy.
  destruct (last s) as [m0|] eqn:Hm0.
  - destruct (tuple_le x m0) eqn:Hx; intros [= <-].
    + destruct Hy as [->|Hy]; [done|]. by apply Hb.
    + destruct Hy as [->|Hy]; [apply tuple_le_refl|].
      eapply tuple_le_trans; [by apply Hb|by apply tuple_le_total].
  - intros [= <-]. apply last_None in Hm0 as ->.
    destruct Hy as [->|Hy]; [apply tuple_le_refl|by apply elem_of_nil in Hy].
Qed.

Lemma last_bounds_list_sort l : last_bounds (list_sort l).
Proof.
  induction l as [|x l IH]; simpl.
  - intros y m Hy. by apply elem_of_nil in Hy.
  - by apply last_bounds_insert_sorted.
Qed.

(** [results.sort(); results[-1]] is [winner]. *)
Lemma last_list_sort l : last (list_sort l) = winner l.
Proof.
  induction l as [|x l IH]; [done|].
  simpl. rewrite last_insert_sorted by apply last_bounds_list_sort.
  rewrite IH. destruct (winner l) as [m|]; [|done]. by destruct (tuple_le x m).
Qed.

Lemma elem_of_list_sort y l : y ∈ list_sort l ↔ y ∈ l.
Proof.
  induction l as [|x l IH]; simpl; [done|].
  rewrite elem_of_insert_sorted, IH, elem_of_cons. tauto.
Qed.

Lemma winner_is_Some l : l ≠ [] → is_Some (winner l).
Proof.
  destruct l as [|x l]; [done|]. intros _. simpl.
  destruct (winner l) as [m|]; [destruct (tuple_le x m)|]; eauto.
Qed.

(** The winner is an element, and no element is above it. *)
Lemma winner_max l m :
  winner l = Some m → m ∈ l ∧ ∀ y, y ∈ l → tuple_le y m = true.
Proof.
  intros Hm. rewrite <- last_list_sort in Hm. split.
  - apply elem_of_list_sort. by apply last_Some_elem_of.
  - intros y Hy. eapply (last_bounds_list_sort l); [|done].
    by apply elem_of_list_sort.
Qed.

(** The winner by position: the entry at [i] wins when nothing is above
    it and everything after it is strictly below it. *)
Lemma winner_at l i x :
  l !! i = Some x →
  (∀ j y, l !! j = Some y → tuple_le y x = true) →
  (∀ j y, l !! j = Some y → (i < j)%nat → tuple_le x y = false) →
  winner l = Some x.
Proof.
  revert i. induction l as [|z l IH]; intros i Hi Hle Hlt; [done|].
  simpl. destruct i as [|i]; simpl in Hi.
  - injection Hi as ->. destruct (winner l) as [m|] eqn:Hm; [|done].
    apply winner_max in Hm as [Hin _].
    apply list_elem_of_lookup in Hin as [j Hj].
    by rewrite (Hlt (S j) m Hj) by lia.
  - rewrite (IH i); [| done | |].
    + by rewrite (Hle 0%nat z).
    + intros j y Hj. by apply (Hle (S j)).
    + intros j y Hj Hij. apply (Hlt (S j)); [done|lia].
Qed.

End SortProperties.

Section DispatchProperties.

Context {V : Type}.
Variable default_options : list (Kind V).
Implicit Types (K : Kind V) (options : list (Kind V)) (w : World) (f : fileref).

Lemma substring_length (n : nat) (s : string) :
  String.length (String.substring 0 n s) = (n `min` String.length s)%nat.
Proof.
  revert s. induction n as [|n IH]; intros [|c s]; simpl; try done.
  by rewrite IH.
Qed.

Lemma is_open_opened path data w : is_open (opened path data w) (length (fds w)) = true.
Proof.
  unfold is_open, opened. simpl. by rewrite list_lookup_middle.
Qed.

Lemma is_open_closed f w : is_open (closed f w) f = false.
Proof.
  unfold is_open, closed, file_close.
  destruct (fds w !! f) as [fo|] eqn:Hf; simpl.
  - rewrite list_lookup_insert_eq; [done|]. by eapply lookup_lt_Some.
  - by rewrite Hf.
Qed.

Lemma closed_fs f w : fs (closed f w) = fs w.
Proof. unfold closed, file_close. by destruct (fds w !! f). Qed.

Lemma file_close_run f w : file_close f w = (closed f w, inr ()).
Proof. unfold closed, file_close. by destruct (fds w !! f). Qed.

(** [File] on an existing path and a non-empty candidate list, with the
    I/O of the prologue carried out. *)
Lemma File_run path options data w :
  options ≠ [] → fs w !! path = Some data →
  File default_options path (Some options) w =
    let f := length (fds w) in
    match scoring path f (String.substring 0 128 data) options (opened path data w) with
    | (w2, inl e) => (closed f w2, inl e)
    | (w2, inr scores) => choose path scores options (closed f w2)
    end.
Proof.
  intros Hne Hdata. unfold File. destruct options as [|K0 options]; [done|].
  set (opts := K0 :: options).
  cbv [mbind M_bind]. unfold file_open at 1. rewrite Hdata.
  unfold try_finally. cbv [mbind M_bind]. unfold file_read at 1. simpl fds.
  rewrite list_lookup_middle by done. simpl fo_closed. simpl fs. simpl fo_name.
  rewrite Hdata. simpl fo_pos.
  replace (<[length (fds w):=_]> (fds w ++ _))
    with (fds w ++ [mkFileObj path (String.length (String.substring 0 128 data)) false]).
  2:{ rewrite <- (Nat.add_0_r (length (fds w))) at 1. by rewrite insert_app_r. }
  simpl warned. fold (opened path data w). unfold scoring.
  destruct (list_comprehension _ opts (opened path data w)) as [w2 [e|scores]].
  - by rewrite file_close_run.
  - by rewrite file_close_run.
Qed.

Lemma list_comprehension_length {A B} (g : A → M B) (xs : list A) w w' ys :
  list_comprehension g xs w = (w', inr ys) → length ys = length xs.
Proof.
  revert w ys. induction xs as [|x xs IH]; intros w ys; simpl.
  - cbv [mret M_ret]. intros [= _ ?]. by subst.
  - cbv [mbind M_bind mret M_ret]. destruct (g x w) as [w1 [e|y]]; [done|].
    destruct (list_comprehension g xs w1) as [w2 [e|ys']] eqn:Hrest; [done|].
    intros [= ? ?]. subst. simpl. f_equal. by eapply IH.
Qed.

(** Scorers that only look: each returns its score and leaves the world
    as it was. *)
Lemma list_comprehension_pure {A B} (g : A → M B) (v : A → B) (xs : list A) w :
  (∀ x, x ∈ xs → g x w = (w, inr (v x))) →
  list_comprehension g xs w = (w, inr (v <$> xs)).
Proof.
  induction xs as [|x xs IH]; intros Hpure; [done|].
  simpl. cbv [mbind M_bind]. rewrite Hpure by (by apply elem_of_cons; left).
  rewrite IH; [done|]. intros y Hy. apply Hpure. by apply elem_of_cons; right.
Qed.

End DispatchProperties.

Example File_two_candidates :
  File [] "song.mp3" (Some [fixed_score 10 1 "mp3"; fixed_score 20 2 "flac"]) (disk "ID3")
  = ({| fs := {[ "song.mp3" := "ID3" ]};
        fds := [mkFileObj "song.mp3" 3 true]; warned := [] |},
     inr (Some (loaded "flac" "song.mp3"))).
Proof. vm_compute. reflexivity. Qed.

Section DispatchTheorems.

Context {V : Type}.
Variable default_options : list (Kind V).
Implicit Types (K B : Kind V) (options : list (Kind V)) (w : World) (f : fileref).

Lemma zip_nonempty {A C} (xs : list A) (ys : list C) :
  length xs = length ys → ys ≠ [] → zip xs ys ≠ [].
Proof. by destruct xs, ys. Qed.

(** [File] after a scoring phase that returned: the outcome is decided
    by the [winner] among the [(score, Kind)] pairs. *)
Lemma File_winner path options data w w2 scores :
  options ≠ [] → fs w !! path = Some data →
  scoring path (length (fds w)) (String.substring 0 128 data) options
    (opened path data w) = (w2, inr scores) →
  ∃ s K,
    winner (zip scores options) = Some (s, K) ∧
    File default_options path (Some options) w =
      if 0 <? s
      then (ft ← construct K path; mret (Some ft)) (closed (length (fds w)) w2)
      else (closed (length (fds w)) w2, inr None).
Proof.
  intros Hne Hdata Hsc.
  assert (length scores = length options) as Hlen
    by (by eapply list_comprehension_length).
  destruct (winner_is_Some (zip scores options)) as [[s K] Hw];
    [by apply zip_nonempty|].
  exists s, K. split; [done|].
  rewrite (File_run default_options path options data w Hne Hdata). simpl.
  rewrite Hsc. unfold choose. rewrite last_list_sort, Hw.
  by destruct (0 <? s).
Qed.

(** ** Empty candidate list *)

(** C6: with an empty candidate list [File] returns [None] at once: no
    exception, no warning, no file object created, and this for every
    path, existing or not. *)
Theorem File_no_candidates path w :
  File default_options path (Some []) w = (w, inr None).
Proof. reflexivity. Qed.

(** With candidates the path is opened first, so a missing file is an
    [IOError] rather than [None]. *)
Lemma File_missing_path path K options w :
  fs w !! path = None →
  File default_options path (Some (K :: options)) w = (w, inl (IOError path)).
Proof.
  intros Hnone. unfold File. cbv [mbind M_bind]. unfold file_open.
  by rewrite Hnone.
Qed.

(** ** Selection by score *)

(** C2: when scoring returns, [File] picks a candidate whose score no
    other score exceeds; if that score is positive the outcome is the
    candidate's constructor applied to the path, and otherwise it is
    [None]. *)
Theorem File_selects_max_score path options data w w2 scores :
  options ≠ [] → fs w !! path = Some data →
  scoring path (length (fds w)) (String.substring 0 128 data) options
    (opened path data w) = (w2, inr scores) →
  ∃ i s K,
    scores !! i = Some s ∧ options !! i = Some K ∧
    (∀ s', s' ∈ scores → s' ≤ s) ∧
    (0 < s →
     File default_options path (Some options) w =
       (ft ← construct K path; mret (Some ft)) (closed (length (fds w)) w2)) ∧
    (s ≤ 0 →
     File default_options path (Some options) w =
       (closed (length (fds w)) w2, inr None)).
Proof.
  intros Hne Hdata Hsc.
  assert (length scores = length options) as Hlen
    by (by eapply list_comprehension_length).
  destruct (File_winner path options data w w2 scores Hne Hdata Hsc)
    as (s & K & Hw & HFile).
  apply winner_max in Hw as [Hin Hmax].
  apply list_elem_of_lookup in Hin as [i Hi].
  apply lookup_zip_with_Some in Hi as (s0 & K0 & [= <- <-] & Hs & HK).
  exists i, s, K. repeat split; try done.
  - intros s' Hs'. apply list_elem_of_lookup in Hs' as [j Hj].
    destruct (lookup_lt_is_Some_2 options j) as [K' HK'].
    { rewrite <- Hlen. by eapply lookup_lt_Some. }
    apply (tuple_le_fst (s', K') (s, K)), Hmax.
    apply list_elem_of_lookup. exists j.
    apply lookup_zip_with_Some. by exists s', K'.
  - intros Hpos. rewrite HFile. by rewrite (proj2 (Z.ltb_lt 0 s) Hpos).
  - intros Hle. rewrite HFile. by rewrite (proj2 (Z.ltb_ge 0 s) Hle).
Qed.

(** A single candidate with a positive score is constructed, whatever
    the score's size. *)
Lemma File_single_candidate path K data w w2 s :
  fs w !! path = Some data →
  score K path (length (fds w)) (String.substring 0 128 data) (opened path data w)
    = (w2, inr s) →
  0 < s →
  File default_options path (Some [K]) w =
    (ft ← construct K path; mret (Some ft)) (closed (length (fds w)) w2).
Proof.
  intros Hdata Hs Hpos.
  destruct (File_winner path [K] data w w2 [s]) as (s0 & K0 & Hw & HFile);
    [done|done| |].
  - unfold scoring. simpl. cbv [mbind M_bind mret M_ret]. by rewrite Hs.
  - simpl in Hw. injection Hw as <- <-.
    rewrite HFile. by rewrite (proj2 (Z.ltb_lt 0 s) Hpos).
Qed.

(** If every candidate scores 0 the result is [None]. *)
Lemma File_all_zero path options data w w2 scores :
  options ≠ [] → fs w !! path = Some data →
  scoring path (length (fds w)) (String.substring 0 128 data) options
    (opened path data w) = (w2, inr scores) →
  (∀ s, s ∈ scores → s = 0) →
  File default_options path (Some options) w = (closed (length (fds w)) w2, inr None).
Proof.
  intros Hne Hdata Hsc Hzero.
  destruct (File_winner path options data w w2 scores Hne Hdata Hsc)
    as (s & K & Hw & HFile).
  apply winner_max in Hw as [Hin _].
  apply list_elem_of_lookup in Hin as [i Hi].
  apply lookup_zip_with_Some in Hi as (s0 & K0 & [= <- <-] & Hs & HK).
  rewrite HFile, (Hzero s); [done|]. by eapply list_elem_of_lookup_2.
Qed.

(** ** Ties *)

(** C1 (as the code has it): the pairs sorted are [(score, Kind)], so
    among the candidates sharing the maximum score the one whose Kind
    object is greatest wins, wherever it was registered; the position
    only decides between entries whose Kind objects compare equal, and
    there the later one wins. *)
Theorem File_tie_by_kind_order path options data w w2 scores i s B :
  fs w !! path = Some data →
  scoring path (length (fds w)) (String.substring 0 128 data) options
    (opened path data w) = (w2, inr scores) →
  options !! i = Some B → scores !! i = Some s →
  (∀ s', s' ∈ scores → s' ≤ s) →
  (∀ j K', j ≠ i → scores !! j = Some s → options !! j = Some K' →
           kind_id K' < kind_id B ∨ (kind_id K' = kind_id B ∧ (j < i)%nat)) →
  0 < s →
  File default_options path (Some options) w =
    (ft ← construct B path; mret (Some ft)) (closed (length (fds w)) w2).
Proof.
  intros Hdata Hsc HB Hs Hmax Hties Hpos.
  assert (options ≠ []) as Hne by (by intros ->).
  destruct (File_winner path options data w w2 scores Hne Hdata Hsc)
    as (s0 & K0 & Hw & HFile).
  assert (winner (zip scores options) = Some (s, B)) as Hw'.
  { apply (winner_at _ i).
    - apply lookup_zip_with_Some. by exists s, B.
    - intros j [s' K'] Hj.
      apply lookup_zip_with_Some in Hj as (? & ? & [= <- <-] & Hs' & HK').
      assert (s' ≤ s) by (by eapply Hmax, list_elem_of_lookup_2).
      unfold tuple_le; simpl.
      destruct (decide (s' = s)) as [->|]; [|lia].
      destruct (decide (j = i)) as [->|Hji].
      + rewrite HB in HK'. injection HK' as ->. lia.
      + destruct (Hties j K' Hji Hs' HK'); lia.
    - intros j [s' K'] Hj Hij.
      apply lookup_zip_with_Some in Hj as (? & ? & [= <- <-] & Hs' & HK').
      assert (s' ≤ s) by (by eapply Hmax, list_elem_of_lookup_2).
      unfold tuple_le; simpl.
      destruct (decide (s' = s)) as [->|]; [|lia].
      destruct (Hties j K' ltac:(lia) Hs' HK'); lia. }
  rewrite Hw' in Hw. injection Hw as <- <-.
  rewrite HFile. by rewrite (proj2 (Z.ltb_lt 0 s) Hpos).
Qed.

(** ** Header, scoring and closing *)

(** C3 (as the code has it): the header is the first 128 bytes of the
    file, or all of it when it is shorter; the candidates are scored on
    (path, file object, header) while the file object is still open,
    positioned after the header; the file object is closed once scoring
    is over, whether it returned or raised, and before the winning
    constructor runs. *)
Theorem File_scores_then_closes path options data w :
  options ≠ [] → fs w !! path = Some data →
  let f := length (fds w) in
  let header := String.substring 0 128 data in
  String.length header = (128 `min` String.length data)%nat ∧
  is_open (opened path data w) f = true ∧
  ∀ w2 r,
    scoring path f header options (opened path data w) = (w2, r) →
    is_open (closed f w2) f = false ∧
    File default_options path (Some options) w =
      match r with
      | inl e => (closed f w2, inl e)
      | inr scores => choose path scores options (closed f w2)
      end.
Proof.
  intros Hne Hdata f header. split; [apply substring_length|].
  split; [apply is_open_opened|].
  intros w2 r Hsc. split; [apply is_open_closed|].
  rewrite (File_run default_options path options data w Hne Hdata). simpl.
  fold f header. rewrite Hsc. by destruct r.
Qed.

End DispatchTheorems.

(** * The theorems at concrete inputs *)

Lemma getitem_delitem_untagged_witness :
  getitem (loaded "mp3" "song.mp3") "title" = inl (KeyError "title") ∧
  delitem (loaded "mp3" "song.mp3") "title" = inl (KeyError "title").
Proof. apply (getitem_delitem_untagged (loaded "mp3" "song.mp3") "title"). reflexivity. Defined.

Lemma keys_untagged_empty_witness :
  keys (loaded "mp3" "song.mp3") = [] ∧
  keys (tagged "mp3" "title=x") = dict_keys (∅ : gmap string (list string)).
Proof.
  split.
  - apply (proj1 (keys_untagged_empty (loaded "mp3" "song.mp3"))). reflexivity.
  - apply (proj2 (keys_untagged_empty (tagged "mp3" "title=x")) _ eq_refl).
Defined.

Lemma setitem_untagged_creates_tags_witness :
  ∃ self' t,
    setitem (loaded "mp3" "song.mp3") "title" ["Blue"] = inr self' ∧
    tags self' = Some t ∧
    getitem self' "title" = inr ["Blue"] ∧
    items t = {[ "title" := ["Blue"] ]}.
Proof.
  apply (setitem_untagged_creates_tags (loaded "mp3" "song.mp3") "title" ["Blue"]).
  reflexivity.
Defined.

Lemma pprint_newline_separated_witness :
  FileType_pprint (loaded "mp3, 3 seconds" "song.mp3") = inr "mp3, 3 seconds" ∧
  FileType_pprint (tagged "mp3, 3 seconds" "title=Blue")
    = inr ("mp3, 3 seconds" +:+ nl +:+ "title=Blue").
Proof.
  split.
  - apply (pprint_newline_separated (loaded "mp3, 3 seconds" "song.mp3")
             (mkStreamInfo "mp3, 3 seconds") eq_refl).
    reflexivity.
  - destruct (pprint_newline_separated (tagged "mp3, 3 seconds" "title=Blue")
                (mkStreamInfo "mp3, 3 seconds") eq_refl) as (_ & _ & _ & Hjoin).
    apply (Hjoin (mkMetadata ∅ (printing_tags "title=Blue"))
             (λ _, inr "title=Blue") "title=Blue"); try reflexivity.
    discriminate.
Defined.

(** C9, counterexample: a stream summary ["s"] and a tag summary ["t"]
    come out as ["s\nt"], one newline between them and no blank line. *)
Lemma pprint_no_blank_line :
  FileType_pprint (tagged "s" "t") = inr ("s" +:+ nl +:+ "t") ∧
  FileType_pprint (tagged "s" "t") ≠ inr (blank_line_join "s" "t").
Proof. split; [reflexivity|]. vm_compute. discriminate. Qed.

Lemma File_selects_max_score_witness :
  ∃ i s K,
    [1; 2] !! i = Some s ∧
    [fixed_score 10 1 "mp3"; fixed_score 20 2 "flac"] !! i = Some K ∧
    (∀ s', s' ∈ [1; 2] → s' ≤ s) ∧
    (0 < s →
     File [] "song.mp3" (Some [fixed_score 10 1 "mp3"; fixed_score 20 2 "flac"])
       (disk "ID3") =
       (ft ← construct K "song.mp3"; mret (Some ft))
         (closed 0%nat (opened "song.mp3" "ID3" (disk "ID3")))) ∧
    (s ≤ 0 →
     File [] "song.mp3" (Some [fixed_score 10 1 "mp3"; fixed_score 20 2 "flac"])
       (disk "ID3") =
       (closed 0%nat (opened "song.mp3" "ID3" (disk "ID3")), inr None)).
Proof.
  apply (File_selects_max_score [] "song.mp3"
           [fixed_score 10 1 "mp3"; fixed_score 20 2 "flac"] "ID3" (disk "ID3")
           (opened "song.mp3" "ID3" (disk "ID3")) [1; 2]).
  - discriminate.
  - reflexivity.
  - reflexivity.
Defined.

(** C1, counterexample: A is registered before B and both score 1, the
    maximum; A's class object is the greater one, and [File] returns the
    instance built by A, not the one B builds. *)
Lemma File_tie_earlier_candidate_wins :
  let A := fixed_score 20 1 "A" in
  let B := fixed_score 10 1 "B" in
  let w' := closed 0%nat (opened "song.mp3" "ID3" (disk "ID3")) in
  scoring "song.mp3" 0%nat "ID3" [A; B] (opened "song.mp3" "ID3" (disk "ID3"))
    = (opened "song.mp3" "ID3" (disk "ID3"), inr [1; 1]) ∧
  File [] "song.mp3" (Some [A; B]) (disk "ID3")
    = (w', inr (Some (loaded "A" "song.mp3"))) ∧
  File [] "song.mp3" (Some [A; B]) (disk "ID3")
    ≠ (ft ← construct B "song.mp3"; mret (Some ft)) w'.
Proof.
  intros A B w'. split; [vm_compute; reflexivity|].
  split; [vm_compute; reflexivity|]. vm_compute. discriminate.
Qed.

Lemma File_tie_by_kind_order_witness :
  File [] "song.mp3" (Some [fixed_score 20 1 "A"; fixed_score 10 1 "B"]) (disk "ID3")
  = (ft ← construct (fixed_score 20 1 "A") "song.mp3"; mret (Some ft))
      (closed 0%nat (opened "song.mp3" "ID3" (disk "ID3"))).
Proof.
  apply (File_tie_by_kind_order [] "song.mp3"
           [fixed_score 20 1 "A"; fixed_score 10 1 "B"] "ID3" (disk "ID3")
           (opened "song.mp3" "ID3" (disk "ID3")) [1; 1] 0%nat 1
           (fixed_score 20 1 "A")).
  - reflexivity.
  - reflexivity.
  - reflexivity.
  - reflexivity.
  - intros s' Hs'. rewrite !elem_of_cons, elem_of_nil in Hs'. lia.
  - intros [|[|j]] K' Hj Hs HK; [done| |done].
    injection HK as <-. left. simpl. lia.
  - lia.
Defined.

(** C3, counterexample: two files with the same path and the same first
    128 bytes; a candidate that reads on from the file object it is
    given scores them differently, so one is rejected and the other
    opened.  Had the file object been closed before scoring, that read
    would have raised. *)
Lemma File_score_reads_past_header :
  String.substring 0 128 (filler 128) = String.substring 0 128 (filler 129) ∧
  (File [] "song.mp3" (Some [tail_reader]) (disk (filler 128))).2 = inr None ∧
  (File [] "song.mp3" (Some [tail_reader]) (disk (filler 129))).2
    = inr (Some (loaded "tail" "song.mp3")) ∧
  (score tail_reader "song.mp3" 0%nat (String.substring 0 128 (filler 129))
     (closed 0%nat (opened "song.mp3" (filler 129) (disk (filler 129))))).2
    = inl (ValueError "I/O operation on closed file").
Proof. repeat split; vm_compute; reflexivity. Qed.

Lemma File_scores_then_closes_witness :
  let w := disk (filler 129) in
  String.length (String.substring 0 128 (filler 129)) = (128 `min` 129)%nat ∧
  is_open (opened "song.mp3" (filler 129) w) 0%nat = true ∧
  ∀ w2 r,
    scoring "song.mp3" 0%nat (String.substring 0 128 (filler 129)) [tail_reader]
      (opened "song.mp3" (filler 129) w) = (w2, r) →
    is_open (closed 0%nat w2) 0%nat = false ∧
    File [] "song.mp3" (Some [tail_reader]) w =
      match r with
      | inl e => (closed 0%nat w2, inl e)
      | inr scores => choose "song.mp3" scores [tail_reader] (closed 0%nat w2)
      end.
Proof.
  apply (File_scores_then_closes [] "song.mp3" [tail_reader] (filler 129)
           (disk (filler 129))).
  - discriminate.
  - reflexivity.
Defined.

(** * Further properties of the facade *)

Section FacadeLaws.

Context {V : Type}.
Implicit Types (self : FileType V) (t : Metadata V) (key : string) (value : V) (w : World).

Lemma set_tags_same self t : tags self = Some t →
  set_tags self (Some (mkMetadata (items t) (tags_class t))) = self.
Proof. destruct self, t. simpl. by intros ->. Qed.

(** Writing one key of a tagged file leaves every other key as it was. *)
Theorem setitem_other_key self t key key' value :
  tags self = Some t → key ≠ key' →
  ∃ self', setitem self key value = inr self' ∧
           getitem self' key' = getitem self key'.
Proof.
  intros Ht Hne. rewrite (setitem_tagged self t) by done.
  eexists. split; [reflexivity|].
  unfold getitem, dict_getitem. rewrite Ht. simpl.
  by rewrite lookup_insert_ne.
Qed.

(** A second write to the same key replaces the first. *)
Theorem setitem_overwrites self t key v1 v2 :
  tags self = Some t →
  rbind (setitem self key v1) (λ self1, setitem self1 key v2) = setitem self key v2.
Proof.
  intros Ht. rewrite !(setitem_tagged self t) by done. simpl.
  unfold setitem. simpl. by rewrite insert_insert_eq.
Qed.

(** After a write, [keys()] lists the written key and the keys that were
    there before, and nothing else. *)
Theorem keys_setitem self t key value self' :
  tags self = Some t → setitem self key value = inr self' →
  ∀ k, k ∈ keys self' ↔ k = key ∨ k ∈ keys self.
Proof.
  intros Ht. rewrite (setitem_tagged self t) by done. intros [= <-] k.
  unfold keys. rewrite Ht. simpl. rewrite !dict_keys_spec.
  destruct (decide (k = key)) as [->|Hne].
  - rewrite lookup_insert_eq. split; [by left|by eauto].
  - rewrite lookup_insert_ne by done. split; [by right|by intros [|]].
Qed.

(** Deleting a key that is present succeeds; afterwards the key is gone
    from lookups and from [keys()], every other key reads as before, and
    deleting it again is a [KeyError]. *)
Theorem delitem_removes_key self t key value :
  tags self = Some t → items t !! key = Some value →
  ∃ self',
    delitem self key = inr self' ∧
    getitem self' key = inl (KeyError key) ∧
    (key ∉ keys self') ∧
    (∀ k, k ≠ key → getitem self' k = getitem self k) ∧
    delitem self' key = inl (KeyError key).
Proof.
  intros Ht Hk. unfold delitem at 1. unfold dict_delitem. rewrite Ht, Hk. simpl.
  eexists. split; [reflexivity|].
  unfold getitem, delitem, dict_getitem, dict_delitem, keys. simpl. rewrite Ht.
  rewrite lookup_delete_eq. repeat split; try done.
  - rewrite dict_keys_spec, lookup_delete_eq. by intros [? ?].
  - intros k Hne. by rewrite lookup_delete_ne.
Qed.

(** Writing a key that was absent and deleting it again gives back the
    file as it was. *)
Theorem setitem_delitem_roundtrip self t key value :
  tags self = Some t → items t !! key = None →
  rbind (setitem self key value) (λ self1, delitem self1 key) = inr self.
Proof.
  intros Ht Hk. rewrite (setitem_tagged self t) by done. simpl.
  unfold delitem, dict_delitem. simpl. rewrite lookup_insert_eq. simpl.
  rewrite delete_insert_eq, delete_id by done.
  f_equal. destruct self, t. simpl in *. by subst.
Qed.

(** The dict operations of the facade only touch the tag dict: on a
    tagged file a successful write or delete keeps [info], [filename]
    and the class of the tag object, and the file stays tagged. *)
Theorem dict_ops_keep_rest self t key value self' :
  tags self = Some t →
  setitem self key value = inr self' ∨ delitem self key = inr self' →
  info self' = info self ∧ filename self' = filename self ∧
  ∃ t', tags self' = Some t' ∧ tags_class t' = tags_class t.
Proof.
  intros Ht [Hset|Hdel].
  - rewrite (setitem_tagged self t) in Hset by done. injection Hset as <-.
    simpl. eauto.
  - unfold delitem in Hdel. rewrite Ht in Hdel.
    destruct (dict_delitem (items t) key) as [e|d]; [done|].
    injection Hdel as <-. simpl. eauto.
Qed.

(** ** save and delete with their arguments *)

(** The world after [warnings.warn(msg, DeprecationWarning)]. *)
Lemma warn_run msg cat w :
  warn msg cat w = (mkWorld (fs w) (fds w) (warned w ++ [(msg, cat)]), inr ()).
Proof. reflexivity. Qed.

(** [save(filename=f)] records one [DeprecationWarning] and then hands
    [f], not the stored name, to [tags.save]; the object needs no
    [filename] attribute for this. *)
Theorem save_explicit_filename self t f kw w :
  tags self = Some t →
  FileType_save self (Some f) kw w =
    match tags_save (tags_class t) (items t) f kw
            (mkWorld (fs w) (fds w)
               (warned w ++ [("save(filename=...) is deprecated, reload the file",
                              DeprecationWarning)])) with
    | (w', inl e) => (w', inl e)
    | (w', inr d) => (w', inr (set_tags self (Some (mkMetadata d (tags_class t)))))
    end.
Proof.
  intros Ht. unfold FileType_save. cbv [mbind M_bind mret M_ret warn].
  rewrite Ht. by destruct (tags_save _ _ _ _ _) as [w' [e|d]].
Qed.

(** On an untagged file [save(filename=f)] still records the warning
    before it raises the [ValueError]. *)
Theorem save_explicit_filename_untagged self f kw w :
  tags self = None →
  FileType_save self (Some f) kw w =
    (mkWorld (fs w) (fds w)
       (warned w ++ [("save(filename=...) is deprecated, reload the file",
                      DeprecationWarning)]),
     inl (ValueError "no tags in file")).
Proof.
  intros Hnone. unfold FileType_save. cbv [mbind M_bind mret M_ret warn raise].
  by rewrite Hnone.
Qed.

(** [delete] on an untagged file does nothing at all, whatever file name
    is passed: no exception, no warning, the same object. *)
Theorem delete_untagged_noop self fn w :
  tags self = None → FileType_delete self fn w = (w, inr self).
Proof. intros Hnone. unfold FileType_delete. by rewrite Hnone. Qed.

(** [delete()] on a tagged file is [tags.delete] on the stored file
    name; the tag object stays in place with what [tags.delete] left in
    it.  Without a stored name the call stops with an [AttributeError]
    before [tags.delete] is reached. *)
Theorem delete_stored_filename self t w :
  tags self = Some t →
  (∀ f, filename self = Some f →
        FileType_delete self None w =
          match tags_delete (tags_class t) (items t) f w with
          | (w', inl e) => (w', inl e)
          | (w', inr d) => (w', inr (set_tags self (Some (mkMetadata d (tags_class t)))))
          end) ∧
  (filename self = None →
   ∃ msg, FileType_delete self None w = (w, inl (AttributeError msg))).
Proof.
  intros Ht. unfold FileType_delete, get_filename. rewrite Ht. split.
  - intros f ->. cbv [mbind M_bind mret M_ret lift].
    by destruct (tags_delete _ _ _ _) as [w' [e|d]].
  - intros ->. cbv [mbind M_bind lift]. eauto.
Qed.

(** [delete(filename=f)] on a tagged file records one
    [DeprecationWarning] and calls [tags.delete] on [f]. *)
Theorem delete_explicit_filename self t f w :
  tags self = Some t →
  FileType_delete self (Some f) w =
    match tags_delete (tags_class t) (items t) f
            (mkWorld (fs w) (fds w)
               (warned w ++ [("delete(filename=...) is deprecated, reload the file",
                              DeprecationWarning)])) with
    | (w', inl e) => (w', inl e)
    | (w', inr d) => (w', inr (set_tags self (Some (mkMetadata d (tags_class t)))))
    end.
Proof.
  intros Ht. unfold FileType_delete. rewrite Ht.
  cbv [mbind M_bind mret M_ret warn].
  by destruct (tags_delete _ _ _ _) as [w' [e|d]].
Qed.

(** A file whose tag object is a plain [Metadata] can be neither saved
    nor deleted: both calls raise [NotImplementedError] and leave the
    world alone. *)
Theorem save_delete_abstract_tags self t f kw w :
  tags self = Some t → tags_class t = Metadata_base → filename self = Some f →
  FileType_save self None kw w = (w, inl NotImplementedError) ∧
  FileType_delete self None w = (w, inl NotImplementedError).
Proof.
  intros Ht Hc Hf. unfold FileType_save, FileType_delete, get_filename.
  rewrite Ht, Hf, Hc. split; reflexivity.
Qed.

(** ** The abstract constructors *)

(** [Metadata()] without arguments returns the empty object and never
    calls [load]; given any argument, the base class raises
    [NotImplementedError]. *)
Theorem Metadata_init_abstract load (self : Metadata V) args kw w :
  Metadata_init load self [] [] w = (w, inr self) ∧
  (args ≠ [] ∨ kw ≠ [] →
   Metadata_init Metadata_load self args kw w = (w, inl NotImplementedError)).
Proof.
  split; [reflexivity|]. intros Hargs. unfold Metadata_init, Metadata_load.
  destruct args, kw; try reflexivity. by destruct Hargs.
Qed.

(** [FileType(filename)] on the base class raises [NotImplementedError]:
    no warning, no I/O. *)
Theorem FileType_init_abstract (tc : TagClass V) f w :
  FileType_init FileType_load (fresh tc) (Some f) w = (w, inl NotImplementedError).
Proof. reflexivity. Qed.

End FacadeLaws.

(** * Further properties of the dispatcher *)

Section DispatchLaws.

Context {V : Type}.
Variable default_options : list (Kind V).
Implicit Types (K B : Kind V) (options pre post : list (Kind V)) (w : World).

Lemma list_comprehension_raise {A C} (g : A → M C) (xs : list A) x (zs : list A)
    w wa wb ys e :
  list_comprehension g xs w = (wa, inr ys) →
  g x wa = (wb, inl e) →
  list_comprehension g (xs ++ x :: zs) w = (wb, inl e).
Proof.
  revert w ys. induction xs as [|a xs IH]; intros w ys; simpl.
  - cbv [mret M_ret mbind M_bind]. intros [= <- _] Hx. by rewrite Hx.
  - cbv [mbind M_bind mret M_ret]. destruct (g a w) as [w1 [e1|y]]; [done|].
    destruct (list_comprehension g xs w1) as [w2 [e2|ys']] eqn:Hrest; [done|].
    intros [= <- _] Hx. by rewrite (IH w1 ys' Hrest Hx).
Qed.

Lemma list_comprehension_all {A C} (g : A → M C) (P : C → Prop) (xs : list A) w :
  (∀ x, x ∈ xs → ∃ y, g x w = (w, inr y) ∧ P y) →
  ∃ ys, list_comprehension g xs w = (w, inr ys) ∧ ∀ y, y ∈ ys → P y.
Proof.
  induction xs as [|x xs IH]; intros Hall.
  - exists []. split; [done|]. intros y Hy. by apply elem_of_nil in Hy.
  - destruct (Hall x) as (y & Hy & HP); [by apply elem_of_cons; left|].
    destruct IH as (ys & Hys & HPs).
    { intros z Hz. apply Hall. by apply elem_of_cons; right. }
    exists (y :: ys). split.
    + simpl. cbv [mbind M_bind mret M_ret]. by rewrite Hy, Hys.
    + intros z Hz. apply elem_of_cons in Hz as [->|Hz]; [done|by apply HPs].
Qed.

Lemma closed_opened path data w :
  closed (length (fds w)) (opened path data w) =
    mkWorld (fs w)
      (fds w ++ [mkFileObj path (String.length (String.substring 0 128 data)) true])
      (warned w).
Proof.
  unfold closed, file_close, opened. simpl.
  rewrite list_lookup_middle by done. simpl. f_equal.
  rewrite <- (Nat.add_0_r (length (fds w))) at 1. by rewrite insert_app_r.
Qed.

Lemma substring_all (n : nat) (s : string) :
  (String.length s ≤ n)%nat → String.substring 0 n s = s.
Proof.
  revert n. induction s as [|c s IH]; intros [|n] Hlen; simpl in *; try done; try lia.
  f_equal. apply IH. lia.
Qed.

Lemma zip_fmap_self {A C} (v : A → C) (l : list A) :
  zip (v <$> l) l = (λ a, (v a, a)) <$> l.
Proof. induction l as [|a l IH]; [done|]. simpl. f_equal. exact IH. Qed.

Lemma NoDup_fmap_eq {A C} (g : A → C) (l : list A) a b :
  NoDup (g <$> l) → a ∈ l → b ∈ l → g a = g b → a = b.
Proof.
  induction l as [|c l IH]; intros Hnd Ha Hb Hg; [by apply elem_of_nil in Ha|].
  simpl in Hnd. apply NoDup_cons in Hnd as [Hc Hnd].
  apply elem_of_cons in Ha as [->|Ha]; apply elem_of_cons in Hb as [->|Hb].
  - done.
  - exfalso. apply Hc. rewrite Hg. by apply list_elem_of_fmap_2.
  - exfalso. apply Hc. rewrite <- Hg. by apply list_elem_of_fmap_2.
  - by apply IH.
Qed.

(** When no two entries compare equal both ways, the winner does not
    depend on the order of the list. *)
Lemma winner_Permutation (l l' : list (Z * Kind V)) :
  l ≡ₚ l' →
  (∀ x y, x ∈ l → y ∈ l → tuple_le x y = true → tuple_le y x = true → x = y) →
  winner l = winner l'.
Proof.
  intros Hperm Hanti.
  destruct (winner l) as [m|] eqn:Hm, (winner l') as [m'|] eqn:Hm'.
  - apply winner_max in Hm as [Hin Hmax]. apply winner_max in Hm' as [Hin' Hmax'].
    f_equal. apply Hanti; [done|by rewrite Hperm| |].
    + apply Hmax'. by rewrite <- Hperm.
    + apply Hmax. by rewrite Hperm.
  - destruct l' as [|x l']; [|by destruct (winner_is_Some (x :: l')) as [? ?]; [|congruence]].
    apply Permutation_nil_r in Hperm. by subst.
  - destruct l as [|x l]; [|by destruct (winner_is_Some (x :: l)) as [? ?]; [|congruence]].
    symmetry in Hperm. apply Permutation_nil_r in Hperm. by subst.
  - done.
Qed.

(** A candidate whose score is strictly above all others is the winner. *)
Lemma winner_strict_max (scores : list Z) options i s B :
  options !! i = Some B → scores !! i = Some s →
  (∀ j s', j ≠ i → scores !! j = Some s' → s' < s) →
  winner (zip scores options) = Some (s, B).
Proof.
  intros HB Hs Hlt. apply (winner_at _ i).
  - apply lookup_zip_with_Some. by exists s, B.
  - intros j [s' K'] Hj.
    apply lookup_zip_with_Some in Hj as (? & ? & [= <- <-] & Hs' & HK').
    unfold tuple_le; simpl. destruct (decide (j = i)) as [->|Hji].
    + rewrite HB in HK'. rewrite Hs in Hs'. injection HK' as ->.
      injection Hs' as ->. lia.
    + specialize (Hlt j s' Hji Hs'). lia.
  - intros j [s' K'] Hj Hij.
    apply lookup_zip_with_Some in Hj as (? & ? & [= <- <-] & Hs' & HK').
    unfold tuple_le; simpl. specialize (Hlt j s' ltac:(lia) Hs'). lia.
Qed.

(** ** Failures *)

(** When a candidate's [score] raises, [File] raises the same exception
    after closing the file object; the candidates after it are not
    scored and nothing is constructed. *)
Theorem File_scorer_raises path pre K post data w wa wb ss e :
  fs w !! path = Some data →
  scoring path (length (fds w)) (String.substring 0 128 data) pre
    (opened path data w) = (wa, inr ss) →
  score K path (length (fds w)) (String.substring 0 128 data) wa = (wb, inl e) →
  File default_options path (Some (pre ++ K :: post)) w
    = (closed (length (fds w)) wb, inl e) ∧
  is_open (closed (length (fds w)) wb) (length (fds w)) = false.
Proof.
  intros Hdata Hpre HK. split; [|apply is_open_closed].
  rewrite (File_run default_options path (pre ++ K :: post) data w);
    [|by destruct pre|done].
  simpl. unfold scoring in *.
  by rewrite (list_comprehension_raise _ pre K post _ wa wb ss e Hpre HK).
Qed.

(** When the constructor of the best-scoring candidate raises, [File]
    raises that exception: it does not fall back on another candidate,
    also when others scored above 0. *)
Theorem File_constructor_raises path options data w w2 w3 scores i s B e :
  fs w !! path = Some data →
  scoring path (length (fds w)) (String.substring 0 128 data) options
    (opened path data w) = (w2, inr scores) →
  options !! i = Some B → scores !! i = Some s →
  (∀ j s', j ≠ i → scores !! j = Some s' → s' < s) →
  0 < s →
  construct B path (closed (length (fds w)) w2) = (w3, inl e) →
  File default_options path (Some options) w = (w3, inl e).
Proof.
  intros Hdata Hsc HB Hs Hlt Hpos HB_raise.
  assert (options ≠ []) as Hne by (by intros ->).
  destruct (File_winner default_options path options data w w2 scores Hne Hdata Hsc)
    as (s0 & K0 & Hw & HFile).
  rewrite (winner_strict_max scores options i s B HB Hs Hlt) in Hw.
  injection Hw as <- <-. rewrite HFile, (proj2 (Z.ltb_lt 0 s) Hpos).
  cbv [mbind M_bind]. by rewrite HB_raise.
Qed.

(** ** What a result comes from *)

(** Whenever [File] returns a file, it is what the constructor of one of
    the candidates returned, a candidate whose score is positive and
    that no other score exceeds. *)
Theorem File_result_from_positive_candidate path options data w w2 w3 scores ft :
  options ≠ [] → fs w !! path = Some data →
  scoring path (length (fds w)) (String.substring 0 128 data) options
    (opened path data w) = (w2, inr scores) →
  File default_options path (Some options) w = (w3, inr (Some ft)) →
  ∃ i s K,
    options !! i = Some K ∧ scores !! i = Some s ∧ 0 < s ∧
    (∀ s', s' ∈ scores → s' ≤ s) ∧
    construct K path (closed (length (fds w)) w2) = (w3, inr ft).
Proof.
  intros Hne Hdata Hsc HFile.
  assert (length scores = length options) as Hlen
    by (by eapply list_comprehension_length).
  destruct (File_winner default_options path options data w w2 scores Hne Hdata Hsc)
    as (s & K & Hw & HFile').
  rewrite HFile in HFile'.
  apply winner_max in Hw as [Hin Hmax].
  apply list_elem_of_lookup in Hin as [i Hi].
  apply lookup_zip_with_Some in Hi as (? & ? & [= <- <-] & Hs & HK).
  destruct (0 <? s) eqn:Hpos; [|done].
  exists i, s, K. repeat split; try done.
  - by apply Z.ltb_lt.
  - intros s' Hs'. apply list_elem_of_lookup in Hs' as [j Hj].
    destruct (lookup_lt_is_Some_2 options j) as [K' HK'].
    { rewrite <- Hlen. by eapply lookup_lt_Some. }
    apply (tuple_le_fst (s', K') (s, K)), Hmax.
    apply list_elem_of_lookup. exists j.
    apply lookup_zip_with_Some. by exists s', K'.
  - revert HFile'. cbv [mbind M_bind mret M_ret].
    destruct (construct K path _) as [w' [e'|ft']]; [done|]. by intros [= -> ->].
Qed.

(** ** What File leaves behind *)

(** If the candidates only look (each score returns without changing
    the world) and none scores above 0, [File] returns [None] and the
    world differs from the one it started in by a single closed file
    object, positioned after the header: no file content and no warning
    is touched. *)
Theorem File_rejected_leaves_closed_file path options data w :
  options ≠ [] → fs w !! path = Some data →
  (∀ K, K ∈ options →
        ∃ s, score K path (length (fds w)) (String.substring 0 128 data)
               (opened path data w) = (opened path data w, inr s) ∧ s ≤ 0) →
  File default_options path (Some options) w =
    (mkWorld (fs w)
       (fds w ++ [mkFileObj path (128 `min` String.length data)%nat true])
       (warned w),
     inr None).
Proof.
  intros Hne Hdata Hpure.
  destruct (list_comprehension_all
              (λ K, score K path (length (fds w)) (String.substring 0 128 data))
              (λ s, s ≤ 0) options (opened path data w) Hpure)
    as (scores & Hsc & Hle).
  destruct (File_winner default_options path options data w _ scores Hne Hdata Hsc)
    as (s & K & Hw & HFile).
  apply winner_max in Hw as [Hin _].
  apply list_elem_of_lookup in Hin as [i Hi].
  apply lookup_zip_with_Some in Hi as (? & ? & [= <- <-] & Hs & HK).
  assert (s ≤ 0) as Hs0 by (by eapply Hle, list_elem_of_lookup_2).
  rewrite HFile, (proj2 (Z.ltb_ge 0 s) Hs0), closed_opened.
  by rewrite substring_length.
Qed.

(** A file of at most 128 bytes, the empty file included, is handed to
    the candidates whole: the header is the file's content and the file
    object is at its end. *)
Theorem File_short_file_header path options data w :
  options ≠ [] → fs w !! path = Some data → (String.length data ≤ 128)%nat →
  File default_options path (Some options) w =
    match scoring path (length (fds w)) data options
            (mkWorld (fs w)
               (fds w ++ [mkFileObj path (String.length data) false])
               (warned w)) with
    | (w2, inl e) => (closed (length (fds w)) w2, inl e)
    | (w2, inr scores) => choose path scores options (closed (length (fds w)) w2)
    end.
Proof.
  intros Hne Hdata Hlen.
  rewrite (File_run default_options path options data w Hne Hdata). simpl.
  unfold opened. by rewrite (substring_all 128 data Hlen).
Qed.

(** ** Registration order *)

(** For candidates that only look and whose class objects are pairwise
    distinct, the order in which they are listed does not matter: any
    reordering of the list gives the same outcome. *)
Theorem File_order_irrelevant path options options' data w (v : Kind V → Z) :
  fs w !! path = Some data →
  options ≡ₚ options' →
  NoDup (kind_id <$> options) →
  (∀ K, K ∈ options →
        score K path (length (fds w)) (String.substring 0 128 data)
          (opened path data w) = (opened path data w, inr (v K))) →
  File default_options path (Some options) w
  = File default_options path (Some options') w.
Proof.
  intros Hdata Hperm Hnd Hpure.
  destruct options as [|K0 options0] eqn:Hopts.
  { apply Permutation_nil_l in Hperm. by subst. }
  rewrite <- Hopts in *. assert (options ≠ []) as Hne by (by rewrite Hopts).
  assert (options' ≠ []) as Hne'.
  { intros ->. apply Permutation_nil_r in Hperm. by rewrite Hperm in Hne. }
  clear Hopts.
  assert (∀ l, (∀ K, K ∈ l → K ∈ options) →
    scoring path (length (fds w)) (String.substring 0 128 data) l
      (opened path data w) = (opened path data w, inr (v <$> l))) as Hscoring.
  { intros l Hl. unfold scoring. apply list_comprehension_pure.
    intros K HK. by apply Hpure, Hl. }
  destruct (File_winner default_options path options data w _ _ Hne Hdata
              (Hscoring options (λ K HK, HK))) as (s & K & Hw & ->).
  assert (∀ K, K ∈ options' → K ∈ options) as Hsub
    by (intros K1 HK1; by rewrite Hperm).
  destruct (File_winner default_options path options' data w _ _ Hne' Hdata
              (Hscoring options' Hsub)) as (s' & K' & Hw' & ->).
  rewrite zip_fmap_self in Hw, Hw'.
  rewrite (winner_Permutation _ ((λ a, (v a, a)) <$> options')) in Hw.
  - rewrite Hw' in Hw. by injection Hw as -> ->.
  - by apply fmap_Permutation.
  - intros x y Hx Hy Hxy Hyx.
    apply list_elem_of_fmap in Hx as (a & -> & Ha).
    apply list_elem_of_fmap in Hy as (b & -> & Hb).
    assert (a = b) as ->; [|done].
    apply (NoDup_fmap_eq kind_id options); try done.
    unfold tuple_le in *; simpl in *. lia.
Qed.

End DispatchLaws.

(** * The further properties at concrete inputs *)

Lemma setitem_other_key_witness :
  ∃ self', setitem (tagged_with {[ "title" := ["Blue"] ]}) "artist" ["Joni"] = inr self' ∧
           getitem self' "title" = getitem (tagged_with {[ "title" := ["Blue"] ]}) "title".
Proof.
  apply (setitem_other_key (tagged_with {[ "title" := ["Blue"] ]})
           (mkMetadata {[ "title" := ["Blue"] ]} (printing_tags ""))).
  - reflexivity.
  - discriminate.
Defined.

Lemma setitem_overwrites_witness :
  rbind (setitem (tagged_with ∅) "title" ["Blue"]) (λ self1, setitem self1 "title" ["Hejira"])
  = setitem (tagged_with ∅) "title" ["Hejira"].
Proof.
  apply (setitem_overwrites (tagged_with ∅) (mkMetadata ∅ (printing_tags ""))).
  reflexivity.
Defined.

Lemma keys_setitem_witness :
  "title" ∈ keys (tagged_with {[ "artist" := ["Joni"]; "title" := ["Blue"] ]})
  ↔ "title" = "artist" ∨ "title" ∈ keys (tagged_with {[ "title" := ["Blue"] ]}).
Proof.
  apply (keys_setitem (tagged_with {[ "title" := ["Blue"] ]})
           (mkMetadata {[ "title" := ["Blue"] ]} (printing_tags "")) "artist" ["Joni"]
           (tagged_with {[ "artist" := ["Joni"]; "title" := ["Blue"] ]})
           eq_refl eq_refl "title").
Defined.

Lemma delitem_removes_key_witness :
  ∃ self',
    delitem (tagged_with {[ "title" := ["Blue"] ]}) "title" = inr self' ∧
    getitem self' "title" = inl (KeyError "title") ∧
    ("title" ∉ keys self') ∧
    (∀ k, k ≠ "title" →
          getitem self' k = getitem (tagged_with {[ "title" := ["Blue"] ]}) k) ∧
    delitem self' "title" = inl (KeyError "title").
Proof.
  apply (delitem_removes_key (tagged_with {[ "title" := ["Blue"] ]})
           (mkMetadata {[ "title" := ["Blue"] ]} (printing_tags "")) "title" ["Blue"]).
  - reflexivity.
  - reflexivity.
Defined.

Lemma setitem_delitem_roundtrip_witness :
  rbind (setitem (tagged_with {[ "title" := ["Blue"] ]}) "artist" ["Joni"])
    (λ self1, delitem self1 "artist")
  = inr (tagged_with {[ "title" := ["Blue"] ]}).
Proof.
  apply (setitem_delitem_roundtrip (tagged_with {[ "title" := ["Blue"] ]})
           (mkMetadata {[ "title" := ["Blue"] ]} (printing_tags ""))).
  - reflexivity.
  - reflexivity.
Defined.

Lemma dict_ops_keep_rest_witness :
  info (tagged_with {[ "title" := ["Blue"] ]}) = info (tagged_with ∅) ∧
  filename (tagged_with {[ "title" := ["Blue"] ]}) = filename (tagged_with ∅) ∧
  ∃ t', tags (tagged_with {[ "title" := ["Blue"] ]}) = Some t' ∧
        tags_class t' = tags_class (mkMetadata ∅ (printing_tags "")).
Proof.
  apply (dict_ops_keep_rest (tagged_with ∅) (mkMetadata ∅ (printing_tags ""))
           "title" ["Blue"]).
  - reflexivity.
  - left. reflexivity.
Defined.

Lemma save_explicit_filename_witness :
  FileType_save (tagged "mp3" "title=Blue") (Some "copy.mp3") [] (disk "ID3")
  = ({| fs := {[ "song.mp3" := "ID3" ]}; fds := [];
        warned := [("save(filename=...) is deprecated, reload the file",
                    DeprecationWarning)] |},
     inr (tagged "mp3" "title=Blue")).
Proof.
  rewrite (save_explicit_filename (tagged "mp3" "title=Blue")
             (mkMetadata ∅ (printing_tags "title=Blue")) "copy.mp3" [] (disk "ID3") eq_refl).
  reflexivity.
Defined.

Lemma save_explicit_filename_untagged_witness :
  FileType_save (loaded "mp3" "song.mp3") (Some "copy.mp3") [] (disk "ID3")
  = ({| fs := fs (disk "ID3"); fds := fds (disk "ID3");
        warned := warned (disk "ID3") ++
                  [("save(filename=...) is deprecated, reload the file",
                    DeprecationWarning)] |},
     inl (ValueError "no tags in file")).
Proof.
  apply (save_explicit_filename_untagged (loaded "mp3" "song.mp3")). reflexivity.
Defined.

Lemma delete_untagged_noop_witness :
  FileType_delete (loaded "mp3" "song.mp3") (Some "copy.mp3") (disk "ID3")
  = (disk "ID3", inr (loaded "mp3" "song.mp3")).
Proof. apply (delete_untagged_noop (loaded "mp3" "song.mp3")). reflexivity. Defined.

Lemma delete_stored_filename_witness :
  FileType_delete (tagged_with {[ "title" := ["Blue"] ]}) None (disk "ID3")
  = (disk "ID3", inr (tagged_with ∅)).
Proof.
  rewrite (proj1 (delete_stored_filename (tagged_with {[ "title" := ["Blue"] ]})
                    (mkMetadata {[ "title" := ["Blue"] ]} (printing_tags ""))
                    (disk "ID3") eq_refl) "song.mp3" eq_refl).
  reflexivity.
Defined.

Lemma delete_explicit_filename_witness :
  FileType_delete (tagged_with {[ "title" := ["Blue"] ]}) (Some "copy.mp3") (disk "ID3")
  = ({| fs := {[ "song.mp3" := "ID3" ]}; fds := [];
        warned := [("delete(filename=...) is deprecated, reload the file",
                    DeprecationWarning)] |},
     inr (tagged_with ∅)).
Proof.
  rewrite (delete_explicit_filename (tagged_with {[ "title" := ["Blue"] ]})
             (mkMetadata {[ "title" := ["Blue"] ]} (printing_tags ""))
             "copy.mp3" (disk "ID3") eq_refl).
  reflexivity.
Defined.

Lemma save_delete_abstract_tags_witness :
  FileType_save plainly_tagged None [] (disk "ID3") = (disk "ID3", inl NotImplementedError) ∧
  FileType_delete plainly_tagged None (disk "ID3") = (disk "ID3", inl NotImplementedError).
Proof.
  apply (save_delete_abstract_tags plainly_tagged (mkMetadata ∅ Metadata_base) "song.mp3");
    reflexivity.
Defined.

Lemma Metadata_init_abstract_witness :
  Metadata_init Metadata_load (mkMetadata (∅ : gmap string (list string)) Metadata_base)
    ["song.mp3"] [] (disk "ID3")
  = (disk "ID3", inl NotImplementedError).
Proof.
  apply (proj2 (Metadata_init_abstract Metadata_load
                  (mkMetadata ∅ Metadata_base) ["song.mp3"] [] (disk "ID3"))).
  left. discriminate.
Defined.

Lemma File_missing_path_witness :
  File [] "other.mp3" (Some [fixed_score 10 1 "mp3"]) (disk "ID3")
  = (disk "ID3", inl (IOError "other.mp3")).
Proof. apply (File_missing_path [] "other.mp3"). reflexivity. Defined.

Lemma File_scorer_raises_witness :
  File [] "song.mp3"
    (Some ([fixed_score 10 1 "mp3"] ++ raising_score 20 :: [fixed_score 30 5 "flac"]))
    (disk "ID3")
  = (closed 0%nat (opened "song.mp3" "ID3" (disk "ID3")), inl (IOError "score")) ∧
  is_open (closed 0%nat (opened "song.mp3" "ID3" (disk "ID3"))) 0%nat = false.
Proof.
  apply (File_scorer_raises [] "song.mp3" [fixed_score 10 1 "mp3"] (raising_score 20)
           [fixed_score 30 5 "flac"] "ID3" (disk "ID3")
           (opened "song.mp3" "ID3" (disk "ID3")) (opened "song.mp3" "ID3" (disk "ID3"))
           [1]).
  - reflexivity.
  - reflexivity.
  - reflexivity.
Defined.

Lemma File_constructor_raises_witness :
  File [] "song.mp3" (Some [fixed_score 10 1 "mp3"; broken 20 2]) (disk "ID3")
  = (closed 0%nat (opened "song.mp3" "ID3" (disk "ID3")),
     inl (FormatError "not a valid file")).
Proof.
  apply (File_constructor_raises [] "song.mp3" [fixed_score 10 1 "mp3"; broken 20 2]
           "ID3" (disk "ID3") (opened "song.mp3" "ID3" (disk "ID3")) _ [1; 2]
           1%nat 2 (broken 20 2)).
  - reflexivity.
  - reflexivity.
  - reflexivity.
  - reflexivity.
  - intros [|[|j]] s' Hj Hs'; [|done|done]. injection Hs' as <-. lia.
  - lia.
  - reflexivity.
Defined.

Lemma File_result_from_positive_candidate_witness :
  ∃ i s K,
    [fixed_score 10 1 "mp3"; fixed_score 20 2 "flac"] !! i = Some K ∧
    [1; 2] !! i = Some s ∧ 0 < s ∧
    (∀ s', s' ∈ [1; 2] → s' ≤ s) ∧
    construct K "song.mp3" (closed 0%nat (opened "song.mp3" "ID3" (disk "ID3")))
      = (closed 0%nat (opened "song.mp3" "ID3" (disk "ID3")),
         inr (loaded "flac" "song.mp3")).
Proof.
  apply (File_result_from_positive_candidate [] "song.mp3"
           [fixed_score 10 1 "mp3"; fixed_score 20 2 "flac"] "ID3" (disk "ID3")
           (opened "song.mp3" "ID3" (disk "ID3"))).
  - discriminate.
  - reflexivity.
  - reflexivity.
  - vm_compute. reflexivity.
Defined.

Lemma File_rejected_leaves_closed_file_witness :
  File [] "song.mp3" (Some [fixed_score 10 0 "mp3"]) (disk "ID3")
  = ({| fs := {[ "song.mp3" := "ID3" ]};
        fds := [mkFileObj "song.mp3" 3 true]; warned := [] |},
     inr None).
Proof.
  apply (File_rejected_leaves_closed_file [] "song.mp3" [fixed_score 10 0 "mp3"]
           "ID3" (disk "ID3")).
  - discriminate.
  - reflexivity.
  - intros K HK. apply list_elem_of_singleton in HK as ->.
    exists 0. split; [reflexivity|lia].
Defined.

Lemma File_short_file_header_witness :
  File [] "song.mp3" (Some [fixed_score 10 1 "mp3"]) (disk "")
  = match scoring "song.mp3" 0%nat "" [fixed_score 10 1 "mp3"]
            {| fs := {[ "song.mp3" := "" ]};
               fds := [mkFileObj "song.mp3" 0 false]; warned := [] |} with
    | (w2, inl e) => (closed 0%nat w2, inl e)
    | (w2, inr scores) =>
      choose "song.mp3" scores [fixed_score 10 1 "mp3"] (closed 0%nat w2)
    end.
Proof.
  apply (File_short_file_header [] "song.mp3" [fixed_score 10 1 "mp3"] "" (disk "")).
  - discriminate.
  - reflexivity.
  - simpl. lia.
Defined.

Lemma File_order_irrelevant_witness :
  File [] "song.mp3" (Some [fixed_score 20 1 "A"; fixed_score 10 1 "B"]) (disk "ID3")
  = File [] "song.mp3" (Some [fixed_score 10 1 "B"; fixed_score 20 1 "A"]) (disk "ID3").
Proof.
  apply (File_order_irrelevant [] "song.mp3"
           [fixed_score 20 1 "A"; fixed_score 10 1 "B"]
           [fixed_score 10 1 "B"; fixed_score 20 1 "A"] "ID3" (disk "ID3") (λ _, 1)).
  - reflexivity.
  - apply perm_swap.
  - simpl. apply NoDup_cons. split; [|apply NoDup_singleton].
    intros Hin. apply list_elem_of_singleton in Hin. discriminate.
  - intros K HK. apply elem_of_cons in HK as [->|HK]; [reflexivity|].
    apply list_elem_of_singleton in HK as ->. reflexivity.
Defined.
